(** * substring.hpp: a [char*] + length wrapper

    Shallow embedding of [substring::basic_substring] (src/substring.hpp)
    and the properties of its construction, slicing, indexing, iteration,
    emptiness, shrinking, clearing, streaming and conversion operations.

    Conventions of the embedding:
    - [std::size_t] is a 64-bit unsigned integer (LP64), carried as a [Z]
      with the wrap-around of every subtraction and decrement written out;
    - a [const charT*] is an address, a [Z]; the null pointer is [0];
      pointer arithmetic is plain addition of addresses, which is what
      the code computes as long as the sum stays inside the address
      space ([is_address]); a statement about a pointer moved beyond the
      characters of its view asks for that;
    - the character storage the views point into is a partial map from
      addresses to characters; reading an address that holds no character
      is the undefined behaviour of the source and yields [None];
    - the [Assert] template parameter is a record giving what its failure
      branch does; every checked operation returns, next to its result,
      the messages it handed to that failure branch. *)

From Stdlib Require Import ZArith List Lia Bool Ascii String.
Import ListNotations.
Local Open Scope Z_scope.

Module substring.

(** ** [std::size_t] and pointers *)

Definition size_bits : Z := 64.
Definition size_modulus : Z := 2 ^ size_bits.

Definition size_type := Z.

(** Conversion of a mathematical integer to [size_type] (modular). *)
Definition to_size (z : Z) : size_type := z mod size_modulus.

(** The values a [size_type] object can hold. *)
Definition is_size (z : Z) : Prop := 0 <= z < size_modulus.

(** [static const size_type npos = -1;] *)
Definition npos : size_type := to_size (-1).

Definition const_pointer := Z.

(** The value of a value-initialised pointer. *)
Definition null : const_pointer := 0.


(** ** The [Assert] policy *)

(** Modelled from the spec: the bounds-check policy classes live in the
    headers <assert/emptyassert.hpp>, <assert/noexcept.hpp> and
    <assert/nullarypredicates.hpp>, which are not part of the sources.  A
    policy is given a condition and a message and decides the outcome when
    the condition is false: it either raises an error, which ends the
    operation, or does nothing, and the operation goes on. *)
Record assert_type : Type := {
  error : Type;
  out_of_range_failure : string -> option error
}.

(** Modelled from the spec: the policy of a no-check build, whose failure
    branch does nothing. *)
Definition empty_assert : assert_type :=
  {| error := Empty_set; out_of_range_failure := fun _ => None |}.

(** Modelled from the spec: a policy whose failure branch raises the
    message as an error. *)
Definition throwing_assert : assert_type :=
  {| error := string; out_of_range_failure := fun msg => Some msg |}.

(** Result of a checked operation: the messages handed to the failure
    branch of the policy, then either the error it raised or the value. *)
Definition checked (P : assert_type) (A : Type) : Type :=
  (list string * (error P + A))%type.

Definition ret {P : assert_type} {A : Type} (a : A) : checked P A :=
  ([], inr a).

Definition bind {P : assert_type} {A B : Type}
    (c : checked P A) (k : A -> checked P B) : checked P B :=
  match c with
  | (log, inl e) => (log, inl e)
  | (log, inr a) => let (log', r) := k a in (log ++ log', r)
  end.

Notation "x <- c ;; k" := (bind c (fun x => k))
  (at level 61, c at next level, right associativity).

(** Modelled from the spec: [assert_type::out_of_range_assert(pred, msg)];
    the failure branch is taken exactly when the predicate is false. *)
Definition out_of_range_assert (P : assert_type) (pred : bool) (msg : string)
    : checked P unit :=
  if pred then ret tt
  else ([msg], match out_of_range_failure P msg with
               | Some e => inl e
               | None => inr tt
               end).

(** The messages handed to the failure branch by a checked operation. *)
Definition failures {P : assert_type} {A : Type} (c : checked P A)
    : list string := fst c.

(** Whether the failure branch of the policy was taken. *)
Definition policy_invoked {P : assert_type} {A : Type} (c : checked P A)
    : bool :=
  match failures c with
  | [] => false
  | _ :: _ => true
  end.

(** ** Character storage *)

Section View.

Context {charT : Type}.

Definition memory : Type := const_pointer -> option charT.

(** The [k] characters stored from address [p] on. *)
Fixpoint read (m : memory) (p : const_pointer) (k : nat)
    : option (list charT) :=
  match k with
  | O => Some []
  | S k' =>
      match m p, read m (p + 1) k' with
      | Some c, Some cs => Some (c :: cs)
      | _, _ => None
      end
  end.

(** Storage [m] with the characters [cs] written from address [a] on. *)
Definition store (m : memory) (a : const_pointer) (cs : list charT)
    : memory :=
  fun x =>
    if (a <=? x) && (x <? a + Z.of_nat (List.length cs))
    then nth_error cs (Z.to_nat (x - a))
    else m x.

(** ** [basic_substring] *)

Record basic_substring : Type := {
  start : const_pointer;
  length : size_type
}.

(** [basic_substring()]: both members are value-initialised. *)
Definition basic_substring_default : basic_substring :=
  {| start := null; length := 0 |}.

(** [basic_substring(const basic_substring&)] *)
Definition basic_substring_copy (substring : basic_substring)
    : basic_substring :=
  {| start := start substring; length := length substring |}.

(** [basic_substring(const charT* s, size_type n)] *)
Definition basic_substring_ptr (s : const_pointer) (n : size_type)
    : basic_substring :=
  {| start := s; length := n |}.

Definition begin (V : basic_substring) : const_pointer := start V.

Definition end_ (V : basic_substring) : const_pointer := start V + length V.

Definition size (V : basic_substring) : size_type := length V.

(** [void clear() { length = 0; }] *)
Definition clear (V : basic_substring) : basic_substring :=
  {| start := start V; length := 0 |}.

(** [bool empty() const { return length; }]: the conversion of a
    [size_type] to [bool] is [true] for every value but zero. *)
Definition empty (V : basic_substring) : bool := negb (length V =? 0).

(** [basic_substring(const basic_substring& substring, size_type pos,
    size_type n = npos)] *)
Definition basic_substring_sub (P : assert_type)
    (substring : basic_substring) (pos n : size_type)
    : checked P basic_substring :=
  let size_ := size substring in
  _ <- out_of_range_assert P (pos <=? size_) "pos > size" ;;
  ret {| start := begin substring + pos;
         length := Z.min n (to_size (size_ - pos)) |}.

(** [operator [](size_type pos)]: the reference [start[pos]], read. *)
Definition subscript (m : memory) (V : basic_substring) (pos : size_type)
    : option charT :=
  m (start V + pos).

(** [at(size_type pos)] *)
Definition at_ (P : assert_type) (m : memory) (V : basic_substring)
    (pos : size_type) : checked P (option charT) :=
  _ <- out_of_range_assert P (pos <? size V) "pos >= size" ;;
  ret (m (start V + pos)).

Definition front (m : memory) (V : basic_substring) : option charT :=
  m (start V).

Definition back (m : memory) (V : basic_substring) : option charT :=
  m (start V + length V - 1).

(** [void pop_front() { ++start; --length; }] *)
Definition pop_front (V : basic_substring) : basic_substring :=
  {| start := start V + 1; length := to_size (length V - 1) |}.

(** [void pop_back() { --length; }] *)
Definition pop_back (V : basic_substring) : basic_substring :=
  {| start := start V; length := to_size (length V - 1) |}.

(** [void swap(basic_substring& rhs)]: the pair (this, rhs) afterwards. *)
Definition swap (V rhs : basic_substring)
    : basic_substring * basic_substring :=
  ({| start := start rhs; length := length rhs |},
   {| start := start V; length := length V |}).

Definition data (V : basic_substring) : const_pointer := start V.

(** [substr(size_type pos, size_type n = npos)] *)
Definition substr (P : assert_type) (V : basic_substring)
    (pos n : size_type) : checked P basic_substring :=
  basic_substring_sub P V pos n.

(** The characters a view gives access to: [length] characters from
    [start] on, when all of them are readable. *)
Definition content (m : memory) (V : basic_substring)
    : option (list charT) :=
  read m (start V) (Z.to_nat (length V)).

(** ** Owned strings *)

(** [std::basic_string<charT, traits, Allocator>], as far as the class
    uses it: the owner of [str_size] characters stored from [str_data]
    on. *)
Record basic_string : Type := {
  str_data : const_pointer;
  str_size : size_type
}.

(** [std::basic_string(const charT* s, size_type n)]: copies the [n]
    characters from [s] on into storage of its own, at the address [a]
    that the allocator hands out.  Reading a character that is not there
    is undefined and gives [None]. *)
Definition basic_string_ptr (m : memory) (a s : const_pointer)
    (n : size_type) : option (memory * basic_string) :=
  match read m s (Z.to_nat n) with
  | Some cs => Some (store m a cs, {| str_data := a; str_size := n |})
  | None => None
  end.

(** What the allocator guarantees of the address it hands out for [k]
    characters: none of them holds a character yet. *)
Definition fresh (m : memory) (a : const_pointer) (k : nat) : bool :=
  forallb (fun i => match m (a + Z.of_nat i) with
                    | None => true
                    | Some _ => false
                    end) (seq 0 k).

(** [to_string()] *)
Definition to_string (m : memory) (a : const_pointer) (V : basic_substring)
    : option (memory * basic_string) :=
  basic_string_ptr m a (start V) (length V).

(** [basic_substring(const std::basic_string<charT, traits, Allocator>& s)] *)
Definition basic_substring_string (s : basic_string) : basic_substring :=
  {| start := str_data s; length := str_size s |}.

(** [make_substring(const charT (&str)[N])] *)
Definition make_substring (str : const_pointer) (N : size_type)
    : basic_substring :=
  basic_substring_ptr str (to_size (N - 1)).

(** [operator <<]: [stream.write(substring.data(), substring.size())]. *)
Definition stream_write (m : memory) (stream : list charT)
    (V : basic_substring) : option (list charT) :=
  match read m (data V) (Z.to_nat (size V)) with
  | Some cs => Some (stream ++ cs)
  | None => None
  end.

(** ** Comparison *)

(** The part of [traits] the comparison uses. *)
Record char_traits : Type := {
  lt : charT -> charT -> bool
}.

(** [traits_type::compare(s1, s2, n)]: the sign of the first difference
    among the first [n] characters, zero when there is none. *)
Fixpoint compare (traits : char_traits) (m : memory)
    (s1 s2 : const_pointer) (k : nat) : option Z :=
  match k with
  | O => Some 0
  | S k' =>
      match m s1, m s2 with
      | Some c1, Some c2 =>
          if lt traits c1 c2 then Some (-1)
          else if lt traits c2 c1 then Some 1
          else compare traits m (s1 + 1) (s2 + 1) k'
      | _, _ => None
      end
  end.

(** The two kinds of non-static members of the class. *)
Inductive member_kind : Type := data_member | member_function.

(** The named members of [basic_substring]: [start] and [length] are its
    two data members, of types [const_pointer] and [size_type]; the
    other names are its member functions.  No member function is called
    [length]. *)
Definition member (name : string) : option member_kind :=
  if existsb (String.eqb name) ["start"; "length"]%string
  then Some data_member
  else if existsb (String.eqb name)
            ["begin"; "end"; "rbegin"; "rend"; "cbegin"; "cend"; "crbegin";
             "crend"; "size"; "clear"; "empty"; "at"; "front"; "back";
             "pop_front"; "pop_back"; "swap"; "data"; "substr";
             "to_string"]%string
  then Some member_function
  else None.

(** A call [object.name()]: it has a value when [name] is a member
    function; a data member of type [size_type] cannot be called, and the
    expression is then ill-formed. *)
Definition member_call {A : Type} (name : string) (result : A) : option A :=
  match member name with
  | Some member_function => Some result
  | Some data_member | None => None
  end.

(** [bool operator ==(const basic_substring& rhs)]:
    [length == rhs.length() && traits_type::compare(start, rhs.start,
    length) == 0].  The outer [None] is an operator that has no value at
    all, the inner one a comparison that reads a character that is not
    there. *)
Definition operator_eq (traits : char_traits) (m : memory)
    (V rhs : basic_substring) : option (option bool) :=
  match member_call "length" (length rhs) with
  | None => None
  | Some rhs_length =>
      Some (if length V =? rhs_length
            then match compare traits m (start V) (start rhs)
                         (Z.to_nat (length V)) with
                 | Some r => Some (r =? 0)
                 | None => None
                 end
            else Some false)
  end.

(** [bool operator !=(const basic_substring& rhs)]: the negation of
    [operator ==] on the same two views. *)
Definition operator_ne (traits : char_traits) (m : memory)
    (V rhs : basic_substring) : option (option bool) :=
  match operator_eq traits m V rhs with
  | None => None
  | Some r => Some (option_map negb r)
  end.

End View.

Arguments memory : clear implicits.
Arguments char_traits : clear implicits.

(** ** Storage of string literals *)

(** Storage that holds nothing. *)
Definition no_storage {charT : Type} : memory charT := fun _ => None.

(** Storage that holds the array of a [char] string literal, terminator
    included, at address [a]. *)
Definition literal (a : const_pointer) (s : string) : memory ascii :=
  store no_storage a (list_ascii_of_string s ++ [Ascii.zero]).

(** [std::char_traits<char>], as far as the comparison uses it. *)
Definition char_traits_char : char_traits ascii :=
  {| lt := fun c1 c2 => (nat_of_ascii c1 <? nat_of_ascii c2)%nat |}.

(** ** Iteration and null-terminated input *)

Section Iteration.

Context {charT : Type}.

(** [cbegin()] and [cend()] return [begin()] and [end()]. *)
Definition cbegin (V : basic_substring) : const_pointer := begin V.

Definition cend (V : basic_substring) : const_pointer := end_ V.

(** [std::reverse_iterator<const_iterator>]: it holds the iterator it
    was made from, designates the character just before it, and advances
    by stepping that iterator back. *)
Record const_reverse_iterator : Type := {
  base : const_pointer
}.

Definition rbegin (V : basic_substring) : const_reverse_iterator :=
  {| base := end_ V |}.

Definition rend (V : basic_substring) : const_reverse_iterator :=
  {| base := begin V |}.

Definition crbegin (V : basic_substring) : const_reverse_iterator :=
  {| base := end_ V |}.

Definition crend (V : basic_substring) : const_reverse_iterator :=
  {| base := begin V |}.

(** The characters met by [for (it = first; it != last; ++it)] reading
    [*it]; [fuel] bounds the number of tests of [it != last], and [None]
    is a loop that ran out of it or read a character that is not there. *)
Fixpoint traverse (m : memory charT) (first last : const_pointer)
    (fuel : nat) : option (list charT) :=
  match fuel with
  | O => None
  | S fuel' =>
      if first =? last then Some []
      else match m first with
           | Some c =>
               match traverse m (first + 1) last fuel' with
               | Some cs => Some (c :: cs)
               | None => None
               end
           | None => None
           end
  end.

(** The same loop over reverse iterators. *)
Fixpoint traverse_reverse (m : memory charT)
    (first last : const_reverse_iterator) (fuel : nat)
    : option (list charT) :=
  match fuel with
  | O => None
  | S fuel' =>
      if base first =? base last then Some []
      else match m (base first - 1) with
           | Some c =>
               match traverse_reverse m {| base := base first - 1 |} last
                       fuel' with
               | Some cs => Some (c :: cs)
               | None => None
               end
           | None => None
           end
  end.

(** [traits_type::length(s)]: the number of characters before the first
    one that equals [charT()], which [eos] recognises; [fuel] bounds the
    number of characters looked at. *)
Fixpoint traits_length (eos : charT -> bool) (m : memory charT)
    (s : const_pointer) (fuel : nat) : option size_type :=
  match fuel with
  | O => None
  | S fuel' =>
      match m s with
      | Some c =>
          if eos c then Some 0
          else match traits_length eos m (s + 1) fuel' with
               | Some n => Some (n + 1)
               | None => None
               end
      | None => None
      end
  end.

(** [explicit basic_substring(const charT* s)] *)
Definition basic_substring_cstr (eos : charT -> bool) (m : memory charT)
    (s : const_pointer) (fuel : nat) : option basic_substring :=
  match traits_length eos m s fuel with
  | Some n => Some {| start := s; length := n |}
  | None => None
  end.

(** [to_string(const Allocator& allocator)]: the same copy, made with the
    allocator given. *)
Definition to_string_with (m : memory charT) (a : const_pointer)
    (V : basic_substring) : option (memory charT * basic_string) :=
  basic_string_ptr m a (start V) (length V).

End Iteration.

(** The terminator of [char] strings. *)
Definition eos_char (c : ascii) : bool := Ascii.eqb c Ascii.zero.

(** ** Arithmetic of [size_type] *)

Lemma size_modulus_value : size_modulus = 18446744073709551616.
Proof. reflexivity. Qed.

Lemma to_size_small (z : Z) : is_size z -> to_size z = z.
Proof. intros H. unfold to_size. apply Z.mod_small. exact H. Qed.

Lemma to_size_is_size (z : Z) : is_size (to_size z).
Proof.
  unfold is_size, to_size. apply Z.mod_pos_bound.
  rewrite size_modulus_value. lia.
Qed.

Lemma npos_value : npos = size_modulus - 1.
Proof. reflexivity. Qed.

Lemma npos_greatest (z : Z) : is_size z -> z <= npos.
Proof. unfold is_size. rewrite npos_value. lia. Qed.

(** ** The policy and the checked operations *)

Lemma out_of_range_assert_holds (P : assert_type) (msg : string) :
  out_of_range_assert P true msg = ret tt.
Proof. reflexivity. Qed.

Lemma out_of_range_assert_invoked (P : assert_type) (pred : bool)
    (msg : string) :
  policy_invoked (out_of_range_assert P pred msg) = negb pred.
Proof. destruct pred; reflexivity. Qed.



(** ** Reading and writing the storage *)

Section Storage.

Context {charT : Type}.
Implicit Types (m : memory charT) (p a : const_pointer) (cs : list charT).

Lemma read_length m p (k : nat) cs :
  read m p k = Some cs -> List.length cs = k.
Proof.
  revert p cs. induction k as [|k IH]; intros p cs; simpl.
  - intros [= <-]. reflexivity.
  - destruct (m p) as [c|]; [|discriminate].
    destruct (read m (p + 1) k) as [cs'|] eqn:E; [|discriminate].
    intros [= <-]. simpl. f_equal. apply (IH _ _ E).
Qed.

Lemma read_nth m p (k : nat) cs (i : nat) :
  read m p k = Some cs -> (i < k)%nat ->
  m (p + Z.of_nat i) = nth_error cs i.
Proof.
  revert p cs i. induction k as [|k IH]; intros p cs i; simpl.
  - intros _ Hi. lia.
  - destruct (m p) as [c|] eqn:Ec; [|discriminate].
    destruct (read m (p + 1) k) as [cs'|] eqn:E; [|discriminate].
    intros [= <-] Hi. destruct i as [|i]; simpl.
    + rewrite Z.add_0_r. exact Ec.
    + replace (p + Z.pos (Pos.of_succ_nat i)) with (p + 1 + Z.of_nat i)
        by lia.
      apply IH; [exact E | lia].
Qed.

Lemma read_ext m m' p (k : nat) :
  (forall i : nat, (i < k)%nat -> m' (p + Z.of_nat i) = m (p + Z.of_nat i)) ->
  read m' p k = read m p k.
Proof.
  revert p. induction k as [|k IH]; intros p H; simpl; [reflexivity|].
  assert (H0 : m' p = m p).
  { specialize (H O). rewrite Z.add_0_r in H. apply H. lia. }
  rewrite H0. rewrite (IH (p + 1)); [reflexivity|].
  intros i Hi. specialize (H (S i)).
  replace (p + 1 + Z.of_nat i) with (p + Z.of_nat (S i)) by lia.
  apply H. lia.
Qed.

Lemma read_all m p cs :
  (forall i : nat, (i < List.length cs)%nat ->
     m (p + Z.of_nat i) = nth_error cs i) ->
  read m p (List.length cs) = Some cs.
Proof.
  revert p. induction cs as [|c cs IH]; intros p H; simpl; [reflexivity|].
  assert (H0 : m p = Some c).
  { specialize (H O). rewrite Z.add_0_r in H. apply H. simpl. lia. }
  rewrite H0. rewrite (IH (p + 1)); [reflexivity|].
  intros i Hi. specialize (H (S i)).
  replace (p + 1 + Z.of_nat i) with (p + Z.of_nat (S i)) by lia.
  apply H. simpl. lia.
Qed.

Lemma store_inside m a cs (i : nat) :
  (i < List.length cs)%nat ->
  store m a cs (a + Z.of_nat i) = nth_error cs i.
Proof.
  intros Hi. unfold store.
  replace (a <=? a + Z.of_nat i) with true by (symmetry; apply Z.leb_le; lia).
  replace (a + Z.of_nat i <? a + Z.of_nat (List.length cs)) with true
    by (symmetry; apply Z.ltb_lt; lia).
  simpl. f_equal. lia.
Qed.

Lemma store_outside m a cs (x : const_pointer) :
  x < a \/ a + Z.of_nat (List.length cs) <= x ->
  store m a cs x = m x.
Proof.
  intros H. unfold store.
  destruct (Z.leb_spec a x); destruct (Z.ltb_spec x (a + Z.of_nat (List.length cs)));
    simpl; try reflexivity. lia.
Qed.

Lemma read_store m a cs :
  read (store m a cs) a (List.length cs) = Some cs.
Proof. apply read_all. intros i Hi. apply store_inside. exact Hi. Qed.

Lemma fresh_none m a (k i : nat) :
  fresh m a k = true -> (i < k)%nat -> m (a + Z.of_nat i) = None.
Proof.
  unfold fresh. rewrite forallb_forall. intros H Hi.
  specialize (H i). rewrite in_seq in H.
  destruct (m (a + Z.of_nat i)); [|reflexivity].
  assert (false = true) by (apply H; lia). discriminate.
Qed.

(** Storage that is readable is left alone by a copy to a fresh place. *)
Lemma read_store_fresh m a cs p (k : nat) (ds : list charT) :
  fresh m a (List.length cs) = true ->
  read m p k = Some ds ->
  read (store m a cs) p k = Some ds.
Proof.
  intros Hf Hr. rewrite <- Hr. apply read_ext. intros i Hi.
  destruct (Z.ltb_spec (p + Z.of_nat i) a) as [Hlt|Hge].
  { apply store_outside. lia. }
  destruct (Z.leb_spec (a + Z.of_nat (List.length cs)) (p + Z.of_nat i))
    as [Hle|Hin].
  { apply store_outside. lia. }
  exfalso.
  pose proof (read_nth m p k ds i Hr Hi) as Hn.
  pose proof (read_length m p k ds Hr) as Hl.
  assert (Hsome : nth_error ds i <> None)
    by (apply nth_error_Some; lia).
  pose proof (fresh_none m a (List.length cs)
                (Z.to_nat (p + Z.of_nat i - a)) Hf) as Hnone.
  replace (a + Z.of_nat (Z.to_nat (p + Z.of_nat i - a)))
    with (p + Z.of_nat i) in Hnone by lia.
  rewrite Hnone in Hn by lia. congruence.
Qed.

End Storage.

(** ** Emptiness, shrinking and clearing *)

(** C1: [empty()] returns the length converted to [bool]: it is [false]
    on every view of size zero and [true] on every other view, the
    opposite of a test for emptiness; the default-constructed view, of
    size zero, is reported as not empty. *)
Theorem empty_is_size_nonzero :
  (forall V : basic_substring, empty V = negb (size V =? 0))
  /\ size basic_substring_default = 0
  /\ empty basic_substring_default = false.
Proof. repeat split. Qed.

Lemma pop_front_size (V : basic_substring) :
  1 <= size V < size_modulus -> size (pop_front V) = size V - 1.
Proof.
  intros H. unfold size, pop_front in *; simpl.
  apply to_size_small. unfold is_size. lia.
Qed.

Lemma pop_back_size (V : basic_substring) :
  1 <= size V < size_modulus -> size (pop_back V) = size V - 1.
Proof.
  intros H. unfold size, pop_back in *; simpl.
  apply to_size_small. unfold is_size. lia.
Qed.

(** C6: on a view of size 2, [pop_front] followed by [pop_back] leaves a
    view of size 0, whose first character is the second one of the
    original; [empty()] on that view returns [false]. *)
Theorem pop_front_pop_back_two (V : basic_substring) :
  size V = 2 ->
  size (pop_back (pop_front V)) = 0
  /\ start (pop_back (pop_front V)) = start V + 1
  /\ empty (pop_back (pop_front V)) = false.
Proof.
  intros H.
  assert (H1 : size (pop_front V) = 1).
  { rewrite pop_front_size; rewrite H, ?size_modulus_value; lia. }
  assert (H0 : size (pop_back (pop_front V)) = 0).
  { rewrite pop_back_size; rewrite H1, ?size_modulus_value; lia. }
  repeat split; [exact H0|].
  unfold empty. unfold size in H0. rewrite H0. reflexivity.
Qed.

Lemma pop_front_pop_back_two_witness :
  size (basic_substring_ptr 4096 2) = 2
  /\ size (pop_back (pop_front (basic_substring_ptr 4096 2))) = 0
  /\ start (pop_back (pop_front (basic_substring_ptr 4096 2))) = 4096 + 1
  /\ empty (pop_back (pop_front (basic_substring_ptr 4096 2))) = false.
Proof.
  split; [reflexivity|].
  apply (pop_front_pop_back_two (basic_substring_ptr 4096 2)).
  reflexivity.
Defined.

(** C9: [clear()] sets the length to zero and keeps [start]; a view of
    size zero is left as it was. *)
Theorem clear_length_start (V : basic_substring) :
  length (clear V) = 0
  /\ start (clear V) = start V
  /\ (size V = 0 -> clear V = V).
Proof.
  repeat split. intros H. destruct V as [s l]. unfold size in H.
  simpl in H. subst l. reflexivity.
Qed.

Lemma clear_length_start_witness :
  length (clear (basic_substring_ptr 4096 0)) = 0
  /\ start (clear (basic_substring_ptr 4096 0)) = 4096
  /\ clear (basic_substring_ptr 4096 0) = basic_substring_ptr 4096 0.
Proof.
  destruct (clear_length_start (basic_substring_ptr 4096 0))
    as [Hl [Hs Hn]].
  split; [exact Hl|]. split; [exact Hs|]. apply Hn. reflexivity.
Defined.

(** C10: the default-constructed view has size zero and a null start;
    [data()] returns null, [begin()] and [end()] coincide, and it gives
    access to the empty sequence whatever the storage holds. *)
Theorem default_view_empty_range :
  size basic_substring_default = 0
  /\ data basic_substring_default = null
  /\ begin basic_substring_default = end_ basic_substring_default
  /\ forall (charT : Type) (m : memory charT),
       content m basic_substring_default = Some [].
Proof. repeat split. Qed.

(** ** Slicing *)

Lemma substr_is_sub_range (P : assert_type) (V : basic_substring)
    (pos n : size_type) :
  substr P V pos n = basic_substring_sub P V pos n.
Proof. reflexivity. Qed.

(** Within the bound the sub-range constructor returns, without a word
    to the policy, the view that starts [pos] characters further. *)
Lemma basic_substring_sub_in_range (P : assert_type) (V : basic_substring)
    (pos n : size_type) :
  pos <= size V ->
  basic_substring_sub P V pos n
  = ret {| start := start V + pos;
           length := Z.min n (to_size (size V - pos)) |}.
Proof.
  intros H. unfold basic_substring_sub.
  replace (pos <=? size V) with true by (symmetry; apply Z.leb_le; exact H).
  reflexivity.
Qed.

(** C2: for [pos <= size()], [substr(pos, n)], which is the sub-range
    constructor, returns a view of length [min(n, size() - pos)]; when
    [pos + n > size()] that length is [size() - pos]. *)
Theorem substr_length_clamped (P : assert_type) (V : basic_substring)
    (pos n : size_type) :
  is_size (size V) -> 0 <= pos <= size V ->
  exists W : basic_substring,
    substr P V pos n = ret W
    /\ basic_substring_sub P V pos n = ret W
    /\ start W = start V + pos
    /\ size W = Z.min n (size V - pos)
    /\ (pos + n > size V -> size W = size V - pos).
Proof.
  intros HV Hpos.
  exists {| start := start V + pos;
            length := Z.min n (to_size (size V - pos)) |}.
  assert (Hsmall : to_size (size V - pos) = size V - pos).
  { apply to_size_small. unfold is_size in *. lia. }
  rewrite substr_is_sub_range.
  rewrite basic_substring_sub_in_range by lia.
  rewrite Hsmall. unfold size in *; simpl.
  repeat split. intros Hover. lia.
Qed.

Lemma substr_length_clamped_witness :
  exists W : basic_substring,
    substr throwing_assert (basic_substring_ptr 4096 5) 3 10 = ret W
    /\ basic_substring_sub throwing_assert (basic_substring_ptr 4096 5) 3 10
       = ret W
    /\ start W = 4096 + 3
    /\ size W = Z.min 10 (5 - 3)
    /\ (3 + 10 > 5 -> size W = 5 - 3).
Proof.
  apply (substr_length_clamped throwing_assert (basic_substring_ptr 4096 5)
           3 10).
  - unfold is_size. simpl. rewrite size_modulus_value. lia.
  - simpl. lia.
Defined.



(** C8: [substr(0, size())] returns a view of the same length over the
    same characters: it is the view itself. *)
Theorem substr_whole (P : assert_type) (V : basic_substring) :
  is_size (size V) ->
  exists W : basic_substring,
    substr P V 0 (size V) = ret W
    /\ size W = size V
    /\ (forall (charT : Type) (m : memory charT), content m W = content m V)
    /\ W = V.
Proof.
  intros HV. exists V.
  assert (Hsmall : to_size (size V - 0) = size V).
  { rewrite Z.sub_0_r. apply to_size_small. exact HV. }
  rewrite substr_is_sub_range.
  rewrite basic_substring_sub_in_range by (unfold is_size in HV; lia).
  rewrite Hsmall, Z.min_id, Z.add_0_r.
  destruct V as [s l]. repeat split.
Qed.

Lemma substr_whole_witness :
  exists W : basic_substring,
    substr empty_assert (basic_substring_ptr 4096 5) 0
      (size (basic_substring_ptr 4096 5)) = ret W
    /\ size W = size (basic_substring_ptr 4096 5)
    /\ (forall (charT : Type) (m : memory charT),
         content m W = content m (basic_substring_ptr 4096 5))
    /\ W = basic_substring_ptr 4096 5.
Proof.
  apply (substr_whole empty_assert (basic_substring_ptr 4096 5)).
  unfold is_size. simpl. rewrite size_modulus_value. lia.
Defined.

(** ** Checked access *)



(** ** Conversion to an owned string *)

(** C7: [to_string()] on a view whose characters are readable makes a
    string of exactly [size()] characters, the ones from [start] on, in
    storage of its own: the string's characters lie at the address the
    allocator handed out, and no stored character outside them is
    changed.  The view made of that string starts at the string's
    storage and has the length and the characters of the original.  The
    copy is independent: when the allocator hands out fresh storage, no
    address of the string's storage is an address of the original view,
    and the original keeps its characters. *)
Theorem to_string_round_trip (charT : Type) (m : memory charT)
    (a : const_pointer) (V : basic_substring) (cs : list charT) :
  content m V = Some cs ->
  exists (m' : memory charT) (s : basic_string),
    to_string m a V = Some (m', s)
    /\ str_data s = a
    /\ str_size s = size V
    /\ List.length cs = Z.to_nat (size V)
    /\ (forall i : nat, (i < List.length cs)%nat ->
          m' (str_data s + Z.of_nat i) = nth_error cs i
          /\ m' (str_data s + Z.of_nat i) = m (start V + Z.of_nat i))
    /\ (forall x : const_pointer,
          x < str_data s \/ str_data s + Z.of_nat (List.length cs) <= x ->
          m' x = m x)
    /\ data (basic_substring_string s) = str_data s
    /\ size (basic_substring_string s) = size V
    /\ content m' (basic_substring_string s) = Some cs
    /\ (fresh m a (Z.to_nat (size V)) = true ->
        content m' V = Some cs
        /\ forall x : const_pointer,
             begin V <= x < end_ V ->
             ~ (str_data s <= x < str_data s + size V)).
Proof.
  intros Hcs. unfold content in Hcs.
  pose proof (read_length _ _ _ _ Hcs) as Hlen.
  exists (store m a cs), {| str_data := a; str_size := length V |}.
  unfold to_string, basic_string_ptr. rewrite Hcs.
  unfold content, size, data, begin, end_; simpl.
  split; [reflexivity|]. split; [reflexivity|]. split; [reflexivity|].
  split; [exact Hlen|].
  split.
  { intros i Hi. rewrite store_inside by exact Hi.
    split; [reflexivity|]. symmetry.
    apply (read_nth m (start V) _ cs i Hcs). lia. }
  split; [intros x Hx; apply store_outside; exact Hx|].
  split; [reflexivity|]. split; [reflexivity|].
  split; [rewrite <- Hlen; apply read_store|].
  intros Hf. split.
  - apply read_store_fresh; [|exact Hcs]. rewrite Hlen. exact Hf.
  - intros x HxV Hxs.
    pose proof (read_nth m (start V) _ cs (Z.to_nat (x - start V)) Hcs)
      as Hread.
    replace (start V + Z.of_nat (Z.to_nat (x - start V))) with x in Hread
      by lia.
    pose proof (fresh_none m a _ (Z.to_nat (x - a)) Hf) as Hnone.
    replace (a + Z.of_nat (Z.to_nat (x - a))) with x in Hnone by lia.
    rewrite Hnone in Hread by lia.
    assert (Hsome : nth_error cs (Z.to_nat (x - start V)) <> None)
      by (apply nth_error_Some; lia).
    apply Hsome. symmetry. apply Hread. lia.
Qed.

Lemma to_string_round_trip_witness :
  exists (m' : memory ascii) (s : basic_string),
    to_string (literal 4096 "abc") 8192 (make_substring 4096 4) = Some (m', s)
    /\ str_data s = 8192
    /\ str_size s = 3
    /\ data (basic_substring_string s) = 8192
    /\ size (basic_substring_string s) = 3
    /\ content m' (basic_substring_string s)
       = Some (list_ascii_of_string "abc")
    /\ content m' (make_substring 4096 4)
       = Some (list_ascii_of_string "abc")
    /\ ~ (str_data s <= 4097 < str_data s + 3).
Proof.
  destruct (to_string_round_trip ascii (literal 4096 "abc") 8192
              (make_substring 4096 4) (list_ascii_of_string "abc"))
    as [m' [s [Hs [Hd [Hsize [_ [_ [_ [Hwd [Hw [Hc Hindep]]]]]]]]]]].
  - reflexivity.
  - destruct Hindep as [Hkeep Hdisj]; [reflexivity|].
    exists m', s. split; [exact Hs|]. split; [exact Hd|].
    split; [exact Hsize|]. split; [rewrite Hwd; exact Hd|].
    split; [exact Hw|]. split; [exact Hc|]. split; [exact Hkeep|].
    apply (Hdisj 4097). vm_compute. split; [discriminate | reflexivity].
Defined.

(** ** Comparison *)

Section Compare.

Context {charT : Type} (traits : char_traits charT).

(** Of the order of the characters the comparison needs that two
    characters neither of which is below the other are the same, and
    that no character is below itself; [std::char_traits] has both. *)
Hypothesis lt_irreflexive : forall c : charT, lt traits c c = false.
Hypothesis lt_total :
  forall c1 c2 : charT,
    lt traits c1 c2 = false -> lt traits c2 c1 = false -> c1 = c2.

(** On two readable ranges of the same length [traits_type::compare] is
    zero exactly when they hold the same characters. *)
Lemma compare_zero_content (m : memory charT) (s1 s2 : const_pointer)
    (k : nat) (cs ds : list charT) :
  read m s1 k = Some cs -> read m s2 k = Some ds ->
  exists r : Z, compare traits m s1 s2 k = Some r /\ (r = 0 <-> cs = ds).
Proof.
  revert s1 s2 cs ds. induction k as [|k IH]; intros s1 s2 cs ds; simpl.
  - intros [= <-] [= <-]. exists 0. split; [reflexivity|]. split; reflexivity.
  - destruct (m s1) as [c1|]; [|discriminate].
    destruct (read m (s1 + 1) k) as [cs'|] eqn:E1; [|discriminate].
    destruct (m s2) as [c2|]; [|discriminate].
    destruct (read m (s2 + 1) k) as [ds'|] eqn:E2; [|discriminate].
    intros [= <-] [= <-].
    destruct (lt traits c1 c2) eqn:L12.
    { exists (-1). split; [reflexivity|]. split; [discriminate|].
      intros [= -> _]. rewrite lt_irreflexive in L12. discriminate. }
    destruct (lt traits c2 c1) eqn:L21.
    { exists 1. split; [reflexivity|]. split; [discriminate|].
      intros [= -> _]. rewrite lt_irreflexive in L21. discriminate. }
    destruct (IH _ _ _ _ E1 E2) as [r [Hr Hiff]].
    exists r. split; [exact Hr|].
    rewrite (lt_total c1 c2 L12 L21). rewrite Hiff.
    split; [intros ->; reflexivity | intros [= ->]; reflexivity].
Qed.

End Compare.

(** C5: [operator ==] calls [rhs.length()], and [length] is a data member
    of type [size_type], which cannot be called: the operator has no
    value on any pair of views, and [operator !=], which negates it, has
    none either. *)
Theorem operator_eq_has_no_value (charT : Type) (traits : char_traits charT)
    (m : memory charT) (A B : basic_substring) :
  member "length" = Some data_member
  /\ operator_eq traits m A B = None
  /\ operator_ne traits m A B = None.
Proof. repeat split. Qed.

(** ** Unchecked access, swapping and streaming *)

Lemma at_subscript (P : assert_type) (charT : Type) (m : memory charT)
    (V : basic_substring) (pos : size_type) :
  pos < size V -> at_ P m V pos = ret (subscript m V pos).
Proof.
  intros H. unfold at_, subscript.
  replace (pos <? size V) with true by (symmetry; apply Z.ltb_lt; exact H).
  reflexivity.
Qed.

Lemma front_subscript (charT : Type) (m : memory charT)
    (V : basic_substring) :
  front m V = subscript m V 0.
Proof. unfold front, subscript. rewrite Z.add_0_r. reflexivity. Qed.

Lemma back_subscript (charT : Type) (m : memory charT)
    (V : basic_substring) :
  back m V = subscript m V (size V - 1).
Proof. unfold back, subscript, size. f_equal. lia. Qed.

Lemma swap_swap (V rhs : basic_substring) :
  swap (fst (swap V rhs)) (snd (swap V rhs)) = (V, rhs).
Proof. destruct V, rhs. reflexivity. Qed.

Lemma stream_write_empty (charT : Type) (m : memory charT)
    (stream : list charT) (V : basic_substring) :
  size V = 0 -> stream_write m stream V = Some stream.
Proof.
  intros H. unfold stream_write. rewrite H. simpl.
  rewrite app_nil_r. reflexivity.
Qed.

Lemma substr_to_end (P : assert_type) (V : basic_substring)
    (pos : size_type) :
  is_size (size V) -> 0 <= pos <= size V ->
  substr P V pos npos
  = ret {| start := start V + pos; length := size V - pos |}.
Proof.
  intros HV Hpos. rewrite substr_is_sub_range.
  rewrite basic_substring_sub_in_range by lia.
  rewrite to_size_small by (unfold is_size in *; lia).
  rewrite Z.min_r; [reflexivity|].
  apply npos_greatest. unfold is_size in *. lia.
Qed.

(** ** Scenarios *)

Example substr_hello :
  exists W : basic_substring,
    substr throwing_assert (make_substring 4096 6) 1 3 = ret W
    /\ size W = 3
    /\ content (literal 4096 "hello") W = Some (list_ascii_of_string "ell").
Proof. eexists. repeat split. Qed.

Example substr_hello_out_of_range :
  substr throwing_assert (make_substring 4096 6) 10 npos
  = (["pos > size"%string], inl "pos > size"%string).
Proof. reflexivity. Qed.

Example substr_hello_unchecked :
  substr empty_assert (make_substring 4096 6) 10 npos
  = (["pos > size"%string],
     inr {| start := 4106; length := size_modulus - 5 |}).
Proof. reflexivity. Qed.

Example compare_equal_buffers :
  compare char_traits_char
    (store (literal 4096 "abc") 8192 (list_ascii_of_string "abc"))
    4096 8192 3
  = Some 0.
Proof. reflexivity. Qed.

(** ** Iteration *)

Section Traversal.

Context {charT : Type}.
Implicit Types (m : memory charT) (p : const_pointer) (cs : list charT).

Lemma read_app m p (a b : nat) :
  read m p (a + b)
  = match read m p a, read m (p + Z.of_nat a) b with
    | Some xs, Some ys => Some (xs ++ ys)
    | _, _ => None
    end.
Proof.
  revert p. induction a as [|a IH]; intros p.
  - simpl. rewrite Z.add_0_r. destruct (read m p b); reflexivity.
  - change (S a + b)%nat with (S (a + b)). simpl read at 1 2.
    rewrite IH.
    replace (p + 1 + Z.of_nat a) with (p + Z.of_nat (S a)) by lia.
    destruct (m p) as [c|]; [|reflexivity].
    destruct (read m (p + 1) a) as [xs|]; [|reflexivity].
    destruct (read m (p + Z.of_nat (S a)) b); reflexivity.
Qed.

Lemma read_snoc m p (k : nat) :
  read m p (S k)
  = match read m p k, m (p + Z.of_nat k) with
    | Some xs, Some c => Some (xs ++ [c])
    | _, _ => None
    end.
Proof.
  replace (S k) with (k + 1)%nat by lia. rewrite read_app. simpl.
  destruct (read m p k); [|reflexivity].
  destruct (m (p + Z.of_nat k)); reflexivity.
Qed.

Lemma traverse_read m p (k fuel : nat) :
  (k < fuel)%nat ->
  traverse m p (p + Z.of_nat k) fuel = read m p k.
Proof.
  revert p fuel. induction k as [|k IH]; intros p fuel Hf;
    (destruct fuel as [|fuel]; [lia|]).
  - simpl. rewrite Z.add_0_r, Z.eqb_refl. reflexivity.
  - simpl traverse. simpl read.
    replace (p =? p + Z.pos (Pos.of_succ_nat k)) with false
      by (symmetry; apply Z.eqb_neq; lia).
    replace (p + Z.pos (Pos.of_succ_nat k)) with (p + 1 + Z.of_nat k) by lia.
    rewrite IH by lia.
    destruct (m p); [|reflexivity].
    destruct (read m (p + 1) k); reflexivity.
Qed.

Lemma traverse_reverse_read m p (k fuel : nat) :
  (k < fuel)%nat ->
  traverse_reverse m {| base := p + Z.of_nat k |} {| base := p |} fuel
  = option_map (@rev charT) (read m p k).
Proof.
  revert fuel. induction k as [|k IH]; intros fuel Hf;
    (destruct fuel as [|fuel]; [lia|]).
  - simpl. rewrite Z.add_0_r, Z.eqb_refl. reflexivity.
  - rewrite read_snoc. simpl traverse_reverse.
    replace (p + Z.pos (Pos.of_succ_nat k) =? p) with false
      by (symmetry; apply Z.eqb_neq; lia).
    replace (p + Z.pos (Pos.of_succ_nat k) - 1) with (p + Z.of_nat k) by lia.
    rewrite IH by lia.
    destruct (m (p + Z.of_nat k)) as [c|];
      destruct (read m p k) as [xs|]; simpl; try reflexivity.
    rewrite rev_app_distr. reflexivity.
Qed.

End Traversal.

(** X1: on a view whose characters are readable, the loop from [begin()]
    to [end()] stops after [size()] steps and meets exactly the
    characters of the view, in order; [cbegin()] and [cend()] give the
    same loop, and [end() - begin()] is [size()]. *)
Theorem iterate_forward (charT : Type) (m : memory charT)
    (V : basic_substring) (cs : list charT) (fuel : nat) :
  content m V = Some cs -> 0 <= size V ->
  (Z.to_nat (size V) < fuel)%nat ->
  traverse m (begin V) (end_ V) fuel = Some cs
  /\ traverse m (cbegin V) (cend V) fuel = Some cs
  /\ end_ V - begin V = size V.
Proof.
  intros Hcs Hsize Hfuel. unfold content in Hcs.
  unfold cbegin, cend, begin, end_, size in *.
  assert (H : traverse m (start V) (start V + length V) fuel = Some cs).
  { rewrite <- (Z2Nat.id (length V)) at 1 by lia.
    rewrite traverse_read by lia. exact Hcs. }
  repeat split; try exact H. lia.
Qed.

Lemma iterate_forward_witness :
  traverse (literal 4096 "abc") (begin (make_substring 4096 4))
    (end_ (make_substring 4096 4)) 4
  = Some (list_ascii_of_string "abc").
Proof.
  apply (iterate_forward ascii (literal 4096 "abc") (make_substring 4096 4)
           (list_ascii_of_string "abc") 4).
  - reflexivity.
  - vm_compute. discriminate.
  - vm_compute. lia.
Defined.

(** X2: on a view whose characters are readable, the loop from
    [rbegin()] to [rend()] stops after [size()] steps and meets the
    characters of the view in reverse order; [crbegin()] and [crend()]
    give the same loop. *)
Theorem iterate_reverse (charT : Type) (m : memory charT)
    (V : basic_substring) (cs : list charT) (fuel : nat) :
  content m V = Some cs -> 0 <= size V ->
  (Z.to_nat (size V) < fuel)%nat ->
  traverse_reverse m (rbegin V) (rend V) fuel = Some (rev cs)
  /\ traverse_reverse m (crbegin V) (crend V) fuel = Some (rev cs).
Proof.
  intros Hcs Hsize Hfuel. unfold content in Hcs.
  unfold crbegin, crend, rbegin, rend, begin, end_, size in *.
  assert (H : traverse_reverse m {| base := start V + length V |}
                {| base := start V |} fuel = Some (rev cs)).
  { rewrite <- (Z2Nat.id (length V)) at 1 by lia.
    rewrite traverse_reverse_read by lia. rewrite Hcs. reflexivity. }
  split; exact H.
Qed.

Lemma iterate_reverse_witness :
  traverse_reverse (literal 4096 "abc") (rbegin (make_substring 4096 4))
    (rend (make_substring 4096 4)) 4
  = Some (list_ascii_of_string "cba").
Proof.
  apply (iterate_reverse ascii (literal 4096 "abc") (make_substring 4096 4)
           (list_ascii_of_string "abc") 4).
  - reflexivity.
  - vm_compute. discriminate.
  - vm_compute. lia.
Defined.

(** ** Shrinking from either end *)

(** X3: on a view whose characters are [c] followed by [cs], [front()]
    is [c], and [pop_front()] leaves the view of [cs]: one character
    shorter, starting one character further. *)
Theorem pop_front_content (charT : Type) (m : memory charT)
    (V : basic_substring) (c : charT) (cs : list charT) :
  content m V = Some (c :: cs) -> is_size (size V) ->
  front m V = Some c
  /\ content m (pop_front V) = Some cs
  /\ size (pop_front V) = size V - 1
  /\ begin (pop_front V) = begin V + 1
  /\ end_ (pop_front V) = end_ V.
Proof.
  intros Hcs HV. unfold content in Hcs.
  pose proof (read_length _ _ _ _ Hcs) as Hlen. simpl in Hlen.
  unfold is_size, size in HV.
  assert (Hpos : 1 <= length V) by lia.
  assert (Hsmall : to_size (length V - 1) = length V - 1)
    by (apply to_size_small; unfold is_size; lia).
  rewrite <- Hlen in Hcs. simpl in Hcs.
  destruct (m (start V)) as [c'|] eqn:Ec; [|discriminate].
  destruct (read m (start V + 1) (List.length cs)) as [cs'|] eqn:Er;
    [|discriminate].
  injection Hcs as -> ->.
  unfold front, content, pop_front, size, begin, end_; simpl.
  rewrite Hsmall.
  replace (Z.to_nat (length V - 1)) with (List.length cs) by lia.
  repeat split; try assumption; lia.
Qed.

Lemma pop_front_content_witness :
  front (literal 4096 "abc") (make_substring 4096 4) = Some "a"%char
  /\ content (literal 4096 "abc") (pop_front (make_substring 4096 4))
     = Some (list_ascii_of_string "bc").
Proof.
  destruct (pop_front_content ascii (literal 4096 "abc")
              (make_substring 4096 4) "a"%char (list_ascii_of_string "bc"))
    as [Hf [Hc _]].
  - reflexivity.
  - unfold is_size. vm_compute. split; [discriminate | reflexivity].
  - split; [exact Hf | exact Hc].
Defined.

(** X4: on a view whose characters are [cs] followed by [c], [back()] is
    [c], and [pop_back()] leaves the view of [cs]: one character shorter,
    with the same start. *)
Theorem pop_back_content (charT : Type) (m : memory charT)
    (V : basic_substring) (c : charT) (cs : list charT) :
  content m V = Some (cs ++ [c]) -> is_size (size V) ->
  back m V = Some c
  /\ content m (pop_back V) = Some cs
  /\ size (pop_back V) = size V - 1
  /\ begin (pop_back V) = begin V
  /\ end_ (pop_back V) = end_ V - 1.
Proof.
  intros Hcs HV. unfold content in Hcs.
  pose proof (read_length _ _ _ _ Hcs) as Hlen.
  rewrite length_app in Hlen. simpl in Hlen.
  unfold is_size, size in HV.
  assert (Hpos : 1 <= length V) by lia.
  assert (Hsmall : to_size (length V - 1) = length V - 1)
    by (apply to_size_small; unfold is_size; lia).
  replace (Z.to_nat (length V)) with (S (List.length cs)) in Hcs by lia.
  rewrite read_snoc in Hcs.
  destruct (read m (start V) (List.length cs)) as [xs|] eqn:Er;
    [|discriminate].
  destruct (m (start V + Z.of_nat (List.length cs))) as [c'|] eqn:Ec;
    [|discriminate].
  injection Hcs as Hcs. apply app_inj_tail in Hcs. destruct Hcs as [-> ->].
  unfold back, content, pop_back, size, begin, end_; simpl.
  rewrite Hsmall.
  replace (Z.to_nat (length V - 1)) with (List.length cs) by lia.
  replace (start V + length V - 1)
    with (start V + Z.of_nat (List.length cs)) by lia.
  repeat split; try assumption; lia.
Qed.

Lemma pop_back_content_witness :
  back (literal 4096 "abc") (make_substring 4096 4) = Some "c"%char
  /\ content (literal 4096 "abc") (pop_back (make_substring 4096 4))
     = Some (list_ascii_of_string "ab").
Proof.
  destruct (pop_back_content ascii (literal 4096 "abc")
              (make_substring 4096 4) "c"%char (list_ascii_of_string "ab"))
    as [Hb [Hc _]].
  - reflexivity.
  - unfold is_size. vm_compute. split; [discriminate | reflexivity].
  - split; [exact Hb | exact Hc].
Defined.

(** X5: [pop_back()] and [pop_front()] do not look at the length: on a
    view of size zero the decrement wraps and the view claims [npos]
    characters; [at] on it then lets every position below [npos]
    through without a word to the policy and returns what [operator []]
    returns there. *)
Theorem pop_on_empty_wraps (P : assert_type) (charT : Type)
    (m : memory charT) (V : basic_substring) (pos : size_type) :
  size V = 0 -> pos < npos ->
  size (pop_back V) = npos
  /\ size (pop_front V) = npos
  /\ policy_invoked (at_ P m (pop_back V) pos) = false
  /\ policy_invoked (at_ P m (pop_front V) pos) = false
  /\ at_ P m (pop_back V) pos = ret (subscript m (pop_back V) pos)
  /\ at_ P m (pop_front V) pos = ret (subscript m (pop_front V) pos).
Proof.
  intros H Hpos. unfold size in H.
  assert (Hb : size (pop_back V) = npos)
    by (unfold size, pop_back; simpl; rewrite H; reflexivity).
  assert (Hf : size (pop_front V) = npos)
    by (unfold size, pop_front; simpl; rewrite H; reflexivity).
  assert (Hatb : at_ P m (pop_back V) pos
                 = ret (subscript m (pop_back V) pos))
    by (apply at_subscript; rewrite Hb; exact Hpos).
  assert (Hatf : at_ P m (pop_front V) pos
                 = ret (subscript m (pop_front V) pos))
    by (apply at_subscript; rewrite Hf; exact Hpos).
  split; [exact Hb|]. split; [exact Hf|].
  split; [rewrite Hatb; reflexivity|].
  split; [rewrite Hatf; reflexivity|].
  split; assumption.
Qed.

Lemma pop_on_empty_wraps_witness :
  size (pop_back (basic_substring_ptr 4096 0)) = npos
  /\ policy_invoked
       (at_ throwing_assert (literal 4096 "abc")
          (pop_back (basic_substring_ptr 4096 0)) 2) = false
  /\ at_ throwing_assert (literal 4096 "abc")
       (pop_back (basic_substring_ptr 4096 0)) 2
     = ret (subscript (literal 4096 "abc")
              (pop_back (basic_substring_ptr 4096 0)) 2).
Proof.
  destruct (pop_on_empty_wraps throwing_assert ascii (literal 4096 "abc")
              (basic_substring_ptr 4096 0) 2) as [Hb [_ [Hinv [_ [Hat _]]]]];
    [reflexivity | reflexivity |].
  split; [exact Hb|]. split; [exact Hinv | exact Hat].
Defined.

(** X6: on a view that is not empty, [pop_front()] gives the view
    [substr(1)] returns and [pop_back()] the view [substr(0, size() - 1)]
    returns, whatever the policy. *)
Theorem pop_is_substr (P : assert_type) (V : basic_substring) :
  1 <= size V < size_modulus ->
  substr P V 1 npos = ret (pop_front V)
  /\ substr P V 0 (size V - 1) = ret (pop_back V).
Proof.
  intros H.
  assert (Hsmall : to_size (size V - 1) = size V - 1)
    by (apply to_size_small; unfold is_size; lia).
  split.
  - rewrite substr_to_end by (unfold is_size; lia).
    unfold pop_front. fold (size V). rewrite Hsmall. reflexivity.
  - rewrite substr_is_sub_range, basic_substring_sub_in_range by lia.
    rewrite Z.sub_0_r, to_size_small by (unfold is_size; lia).
    rewrite Z.min_l by lia. rewrite Z.add_0_r.
    unfold pop_back. fold (size V). rewrite Hsmall. reflexivity.
Qed.

Lemma pop_is_substr_witness :
  substr throwing_assert (make_substring 4096 4) 1 npos
  = ret (pop_front (make_substring 4096 4))
  /\ substr throwing_assert (make_substring 4096 4) 0
       (size (make_substring 4096 4) - 1)
     = ret (pop_back (make_substring 4096 4)).
Proof.
  apply (pop_is_substr throwing_assert (make_substring 4096 4)).
  vm_compute. split; [discriminate | reflexivity].
Defined.

(** ** Slices of readable views *)

Lemma read_slice (charT : Type) (m : memory charT) (p : const_pointer)
    (k : nat) (cs : list charT) (a b : nat) :
  read m p k = Some cs -> (a + b <= k)%nat ->
  read m (p + Z.of_nat a) b = Some (firstn b (skipn a cs)).
Proof.
  intros Hcs Hab.
  pose proof (read_length _ _ _ _ Hcs) as Hlen.
  assert (Hb : List.length (firstn b (skipn a cs)) = b).
  { rewrite length_firstn, length_skipn. lia. }
  rewrite <- Hb at 1. apply read_all. rewrite Hb. intros i Hi.
  rewrite nth_error_firstn, nth_error_skipn.
  replace (PeanoNat.Nat.ltb i b) with true
    by (symmetry; apply PeanoNat.Nat.ltb_lt; exact Hi).
  replace (p + Z.of_nat a + Z.of_nat i) with (p + Z.of_nat (a + i)) by lia.
  apply (read_nth m p k cs (a + i) Hcs). lia.
Qed.

Lemma substr_in_range (P : assert_type) (V : basic_substring)
    (pos n : size_type) :
  is_size (size V) -> 0 <= pos <= size V ->
  substr P V pos n
  = ret {| start := start V + pos; length := Z.min n (size V - pos) |}.
Proof.
  intros HV Hpos. rewrite substr_is_sub_range.
  rewrite basic_substring_sub_in_range by lia.
  rewrite to_size_small by (unfold is_size in *; lia). reflexivity.
Qed.

Lemma content_slice (charT : Type) (m : memory charT) (V : basic_substring)
    (cs : list charT) (pos len : Z) :
  content m V = Some cs -> 0 <= pos -> 0 <= len -> pos + len <= length V ->
  content m {| start := start V + pos; length := len |}
  = Some (firstn (Z.to_nat len) (skipn (Z.to_nat pos) cs)).
Proof.
  intros Hcs Hpos Hlen Hin. unfold content in *; simpl.
  rewrite <- (Z2Nat.id pos) at 1 by lia.
  apply (read_slice charT m (start V) _ cs _ _ Hcs). lia.
Qed.

(** X7: within the bound, [substr(pos, n)] of a view whose characters
    are readable is a view of the characters left after dropping the
    first [pos] of them and keeping at most [n]. *)
Theorem substr_content (P : assert_type) (charT : Type) (m : memory charT)
    (V : basic_substring) (cs : list charT) (pos n : size_type) :
  content m V = Some cs -> is_size (size V) ->
  0 <= pos <= size V -> 0 <= n ->
  exists W : basic_substring,
    substr P V pos n = ret W
    /\ content m W = Some (firstn (Z.to_nat n) (skipn (Z.to_nat pos) cs)).
Proof.
  intros Hcs HV Hpos Hn.
  exists {| start := start V + pos; length := Z.min n (size V - pos) |}.
  split; [apply substr_in_range; assumption|].
  pose proof (read_length _ _ _ _ Hcs) as Hlen.
  unfold size in *.
  rewrite (content_slice charT m V cs pos _ Hcs) by lia.
  f_equal.
  destruct (Z.le_ge_cases n (length V - pos)) as [Hle|Hge].
  - rewrite Z.min_l by exact Hle. reflexivity.
  - rewrite Z.min_r by exact Hge.
    rewrite !firstn_all2; [reflexivity | |]; rewrite length_skipn; lia.
Qed.

Lemma substr_content_witness :
  exists W : basic_substring,
    substr throwing_assert (make_substring 4096 6) 1 3 = ret W
    /\ content (literal 4096 "hello") W = Some (list_ascii_of_string "ell").
Proof.
  apply (substr_content throwing_assert ascii (literal 4096 "hello")
           (make_substring 4096 6) (list_ascii_of_string "hello") 1 3).
  - reflexivity.
  - unfold is_size. vm_compute. split; [discriminate | reflexivity].
  - vm_compute. split; discriminate.
  - lia.
Defined.

(** X8: within the bound, [substr(pos, n)] never reaches outside the
    view it is taken from: the result starts no earlier, ends no later,
    is no longer, and its length is a [size_type] value again. *)
Theorem substr_within_source (P : assert_type) (V : basic_substring)
    (pos n : size_type) :
  is_size (size V) -> 0 <= pos <= size V -> 0 <= n ->
  exists W : basic_substring,
    substr P V pos n = ret W
    /\ begin V <= begin W
    /\ end_ W <= end_ V
    /\ size W <= size V
    /\ size W <= n
    /\ is_size (size W).
Proof.
  intros HV Hpos Hn.
  exists {| start := start V + pos; length := Z.min n (size V - pos) |}.
  split; [apply substr_in_range; assumption|].
  unfold begin, end_, is_size, size in *; simpl. lia.
Qed.

Lemma substr_within_source_witness :
  exists W : basic_substring,
    substr throwing_assert (basic_substring_ptr 4096 5) 3 10 = ret W
    /\ begin (basic_substring_ptr 4096 5) <= begin W
    /\ end_ W <= end_ (basic_substring_ptr 4096 5)
    /\ size W <= size (basic_substring_ptr 4096 5)
    /\ size W <= 10
    /\ is_size (size W).
Proof.
  apply (substr_within_source throwing_assert (basic_substring_ptr 4096 5)
           3 10).
  - unfold is_size. vm_compute. split; [discriminate | reflexivity].
  - vm_compute. split; discriminate.
  - lia.
Defined.

(** X9: a slice of a slice is a slice of the original: for offsets within
    the bounds, [substr(pos1, n1)] followed by [substr(pos2, n2)] returns
    what [substr(pos1 + pos2, n)] returns for the smaller [n] of [n2] and
    what is left of the first slice after [pos2]. *)
Theorem substr_substr (P : assert_type) (V : basic_substring)
    (pos1 n1 pos2 n2 : size_type) :
  is_size (size V) -> 0 <= pos1 <= size V ->
  0 <= pos2 <= Z.min n1 (size V - pos1) ->
  (W <- substr P V pos1 n1 ;; substr P W pos2 n2)
  = substr P V (pos1 + pos2)
      (Z.min n2 (Z.min n1 (size V - pos1) - pos2)).
Proof.
  intros HV H1 H2. unfold is_size in HV.
  rewrite (substr_is_sub_range P V pos1).
  rewrite basic_substring_sub_in_range by lia.
  rewrite (to_size_small (size V - pos1)) by (unfold is_size; lia).
  unfold bind, ret. rewrite !substr_is_sub_range.
  rewrite !basic_substring_sub_in_range by (unfold size in *; simpl; lia).
  unfold size in *; simpl.
  rewrite !to_size_small by (unfold is_size; lia).
  unfold ret. f_equal. f_equal. f_equal; lia.
Qed.

Lemma substr_substr_witness :
  (W <- substr throwing_assert (basic_substring_ptr 4096 10) 2 6 ;;
   substr throwing_assert W 1 npos)
  = substr throwing_assert (basic_substring_ptr 4096 10) (2 + 1)
      (Z.min npos (Z.min 6 (10 - 2) - 1)).
Proof.
  apply (substr_substr throwing_assert (basic_substring_ptr 4096 10)
           2 6 1 npos).
  - unfold is_size. vm_compute. split; [discriminate | reflexivity].
  - vm_compute. split; discriminate.
  - vm_compute. split; discriminate.
Defined.

(** X10: with the length left out, a slice of a slice is the slice at
    the sum of the offsets: [substr(pos1)] followed by [substr(pos2)]
    returns what [substr(pos1 + pos2)] returns. *)
Theorem substr_substr_to_end (P : assert_type) (V : basic_substring)
    (pos1 pos2 : size_type) :
  is_size (size V) -> 0 <= pos1 -> 0 <= pos2 -> pos1 + pos2 <= size V ->
  (W <- substr P V pos1 npos ;; substr P W pos2 npos)
  = substr P V (pos1 + pos2) npos.
Proof.
  intros HV H1 H2 H12. unfold is_size in HV.
  rewrite (substr_to_end P V pos1) by (unfold is_size; lia).
  unfold bind, ret.
  rewrite !substr_to_end by (unfold is_size, size in *; simpl; lia).
  unfold size; simpl. unfold ret. f_equal. f_equal. f_equal; lia.
Qed.

Lemma substr_substr_to_end_witness :
  (W <- substr throwing_assert (basic_substring_ptr 4096 10) 2 npos ;;
   substr throwing_assert W 3 npos)
  = substr throwing_assert (basic_substring_ptr 4096 10) (2 + 3) npos.
Proof.
  apply (substr_substr_to_end throwing_assert (basic_substring_ptr 4096 10)
           2 3).
  - unfold is_size. vm_compute. split; [discriminate | reflexivity].
  - lia.
  - lia.
  - vm_compute. discriminate.
Defined.

(** ** Beyond the bounds *)




(** X12: [at(pos)] with [pos >= size()] under a policy whose failure
    branch raises returns no character; under a policy whose failure
    branch does nothing it goes on and returns what [operator []] returns
    at that position, the character stored at [start + pos] if there is
    one. *)
Theorem at_out_of_range (P : assert_type) (charT : Type)
    (m : memory charT) (V : basic_substring) (pos : size_type) :
  size V <= pos ->
  (forall e : error P,
     out_of_range_failure P "pos >= size" = Some e ->
     at_ P m V pos = (["pos >= size"%string], inl e))
  /\ (out_of_range_failure P "pos >= size" = None ->
      at_ P m V pos = (["pos >= size"%string], inr (subscript m V pos))).
Proof.
  intros Hpos. unfold at_.
  replace (pos <? size V) with false by (symmetry; apply Z.ltb_ge; lia).
  unfold out_of_range_assert, bind, ret, subscript.
  split.
  - intros e He. rewrite He. reflexivity.
  - intros Hnone. rewrite Hnone. reflexivity.
Qed.

Lemma at_out_of_range_witness :
  at_ throwing_assert (literal 4096 "abc") (make_substring 4096 4) 3
  = (["pos >= size"%string], inl "pos >= size"%string)
  /\ at_ empty_assert (literal 4096 "abc") (make_substring 4096 4) 3
     = (["pos >= size"%string], inr (Some Ascii.zero)).
Proof.
  assert (Hp : size (make_substring 4096 4) <= 3)
    by (vm_compute; discriminate).
  destruct (at_out_of_range throwing_assert ascii (literal 4096 "abc")
              (make_substring 4096 4) 3 Hp) as [Hraise _].
  destruct (at_out_of_range empty_assert ascii (literal 4096 "abc")
              (make_substring 4096 4) 3 Hp) as [_ Hsilent].
  split.
  - apply Hraise. reflexivity.
  - rewrite Hsilent by reflexivity. reflexivity.
Defined.

(** ** Views of arrays and of null-terminated strings *)

Section Terminated.

Context {charT : Type} (eos : charT -> bool).
Implicit Types (m : memory charT) (s : const_pointer) (cs : list charT).

Lemma read_cons m s (k : nat) :
  read m s (S k)
  = match m s, read m (s + 1) k with
    | Some c, Some cs => Some (c :: cs)
    | _, _ => None
    end.
Proof. reflexivity. Qed.

Lemma traits_length_scan m s cs (z : charT) (fuel : nat) :
  read m s (S (List.length cs)) = Some (cs ++ [z]) ->
  eos z = true -> Forall (fun c => eos c = false) cs ->
  (List.length cs < fuel)%nat ->
  traits_length eos m s fuel = Some (Z.of_nat (List.length cs)).
Proof.
  revert s fuel. induction cs as [|c cs IH]; intros s fuel Hr Hz Hcs Hf;
    (destruct fuel as [|fuel]; [simpl in Hf; lia|]).
  - simpl in Hr. simpl traits_length.
    destruct (m s) as [c'|]; [|discriminate].
    injection Hr as ->. rewrite Hz. reflexivity.
  - cbn [List.length app] in Hr. rewrite read_cons in Hr.
    simpl traits_length.
    destruct (m s) as [c'|]; [|discriminate].
    destruct (read m (s + 1) (S (List.length cs))) as [r|] eqn:Er;
      [|discriminate].
    injection Hr as -> ->.
    inversion Hcs as [|? ? Hc Hrest]; subst.
    rewrite Hc. rewrite (IH (s + 1) fuel Er Hz Hrest) by (simpl in Hf; lia).
    f_equal. simpl List.length. lia.
Qed.

End Terminated.

(** X13: the view made from a pointer alone, when the storage holds the
    characters [cs], none of them a terminator, and then a terminator,
    is the view of exactly [cs]: it starts at the pointer, has as many
    characters as [cs], and the character at [end()] is the terminator.
    The scan needs one step more than [cs] is long. *)
Theorem cstr_content (charT : Type) (eos : charT -> bool)
    (m : memory charT) (s : const_pointer) (cs : list charT) (z : charT)
    (fuel : nat) :
  read m s (S (List.length cs)) = Some (cs ++ [z]) ->
  eos z = true -> Forall (fun c => eos c = false) cs ->
  (List.length cs < fuel)%nat ->
  exists V : basic_substring,
    basic_substring_cstr eos m s fuel = Some V
    /\ start V = s
    /\ size V = Z.of_nat (List.length cs)
    /\ content m V = Some cs
    /\ m (end_ V) = Some z.
Proof.
  intros Hr Hz Hcs Hf.
  exists {| start := s; length := Z.of_nat (List.length cs) |}.
  unfold basic_substring_cstr.
  rewrite (traits_length_scan eos m s cs z fuel Hr Hz Hcs Hf).
  unfold content, size, end_; simpl. rewrite Nat2Z.id.
  rewrite read_snoc in Hr.
  destruct (read m s (List.length cs)) as [xs|]; [|discriminate].
  destruct (m (s + Z.of_nat (List.length cs))) as [c|]; [|discriminate].
  injection Hr as Hr. apply app_inj_tail in Hr. destruct Hr as [-> ->].
  repeat split.
Qed.

Lemma cstr_content_witness :
  exists V : basic_substring,
    basic_substring_cstr eos_char (literal 4096 "abc") 4096 4 = Some V
    /\ start V = 4096
    /\ size V = 3
    /\ content (literal 4096 "abc") V = Some (list_ascii_of_string "abc")
    /\ literal 4096 "abc" (end_ V) = Some Ascii.zero.
Proof.
  apply (cstr_content ascii eos_char (literal 4096 "abc") 4096
           (list_ascii_of_string "abc") Ascii.zero 4).
  - reflexivity.
  - reflexivity.
  - repeat constructor.
  - simpl. lia.
Defined.

(** X14: [make_substring] on an array of [N] characters gives the view
    of all of them but the last, whatever they are: terminators among
    the first [N - 1] characters are kept, and the size is [N - 1]. *)
Theorem make_substring_content (charT : Type) (m : memory charT)
    (str : const_pointer) (N : size_type) (cs : list charT) (t : charT) :
  read m str (Z.to_nat N) = Some (cs ++ [t]) -> is_size N ->
  size (make_substring str N) = N - 1
  /\ size (make_substring str N) = Z.of_nat (List.length cs)
  /\ begin (make_substring str N) = str
  /\ content m (make_substring str N) = Some cs.
Proof.
  intros Hr HN. unfold is_size in HN.
  pose proof (read_length _ _ _ _ Hr) as Hlen.
  rewrite length_app in Hlen. simpl in Hlen.
  assert (Hsmall : to_size (N - 1) = N - 1)
    by (apply to_size_small; unfold is_size; lia).
  unfold make_substring, basic_substring_ptr, content, size, begin; simpl.
  rewrite Hsmall.
  replace (Z.to_nat N) with (S (List.length cs)) in Hr by lia.
  rewrite read_snoc in Hr.
  replace (Z.to_nat (N - 1)) with (List.length cs) by lia.
  destruct (read m str (List.length cs)) as [xs|]; [|discriminate].
  destruct (m (str + Z.of_nat (List.length cs))) as [c|]; [|discriminate].
  injection Hr as Hr. apply app_inj_tail in Hr. destruct Hr as [-> ->].
  repeat split; lia.
Qed.

Lemma make_substring_content_witness :
  size (make_substring 4096 6) = 6 - 1
  /\ content (store no_storage 4096
               (list_ascii_of_string "ab" ++ [Ascii.zero]
                ++ list_ascii_of_string "cd" ++ [Ascii.zero]))
       (make_substring 4096 6)
     = Some (list_ascii_of_string "ab" ++ [Ascii.zero]
             ++ list_ascii_of_string "cd").
Proof.
  destruct (make_substring_content ascii
              (store no_storage 4096
                 (list_ascii_of_string "ab" ++ [Ascii.zero]
                  ++ list_ascii_of_string "cd" ++ [Ascii.zero]))
              4096 6
              (list_ascii_of_string "ab" ++ [Ascii.zero]
               ++ list_ascii_of_string "cd") Ascii.zero)
    as [Hs [_ [_ Hc]]].
  - reflexivity.
  - unfold is_size. vm_compute. split; [discriminate | reflexivity].
  - split; [exact Hs | exact Hc].
Defined.

(** X15: on the array of a literal without a terminator inside, the view
    made from the pointer alone is the view [make_substring] makes of
    the array. *)
Theorem cstr_is_make_substring (charT : Type) (eos : charT -> bool)
    (m : memory charT) (s : const_pointer) (cs : list charT) (z : charT)
    (fuel : nat) :
  read m s (S (List.length cs)) = Some (cs ++ [z]) ->
  eos z = true -> Forall (fun c => eos c = false) cs ->
  (List.length cs < fuel)%nat ->
  Z.of_nat (S (List.length cs)) < size_modulus ->
  basic_substring_cstr eos m s fuel
  = Some (make_substring s (Z.of_nat (S (List.length cs)))).
Proof.
  intros Hr Hz Hcs Hf HN.
  unfold basic_substring_cstr.
  rewrite (traits_length_scan eos m s cs z fuel Hr Hz Hcs Hf).
  unfold make_substring, basic_substring_ptr.
  rewrite to_size_small by (unfold is_size; lia).
  do 2 f_equal. lia.
Qed.

Lemma cstr_is_make_substring_witness :
  basic_substring_cstr eos_char (literal 4096 "abc") 4096 4
  = Some (make_substring 4096 4).
Proof.
  apply (cstr_is_make_substring ascii eos_char (literal 4096 "abc") 4096
           (list_ascii_of_string "abc") Ascii.zero 4).
  - reflexivity.
  - reflexivity.
  - repeat constructor.
  - simpl. lia.
  - vm_compute. reflexivity.
Defined.

(** With a terminator inside the array the two differ: the scan stops at
    the first one. *)
Example cstr_embedded_terminator :
  basic_substring_cstr eos_char
    (store no_storage 4096
       (list_ascii_of_string "ab" ++ [Ascii.zero]
        ++ list_ascii_of_string "cd" ++ [Ascii.zero])) 4096 6
  = Some (basic_substring_ptr 4096 2).
Proof. reflexivity. Qed.

(** ** Streaming and views of size zero *)

Lemma stream_write_content (charT : Type) (m : memory charT)
    (stream : list charT) (V : basic_substring) :
  stream_write m stream V = option_map (app stream) (content m V).
Proof. reflexivity. Qed.

Lemma to_string_with_to_string (charT : Type) (m : memory charT)
    (a : const_pointer) (V : basic_substring) :
  to_string_with m a V = to_string m a V.
Proof. reflexivity. Qed.

(** X16: streaming a view whose characters are readable appends exactly
    its characters to the stream, and streaming the slices
    [substr(0, k)] and [substr(k)] one after the other writes what
    streaming the view writes. *)
Theorem stream_write_split (P : assert_type) (charT : Type)
    (m : memory charT) (V : basic_substring) (cs stream : list charT)
    (k : size_type) :
  content m V = Some cs -> is_size (size V) -> 0 <= k <= size V ->
  exists W1 W2 : basic_substring,
    substr P V 0 k = ret W1
    /\ substr P V k npos = ret W2
    /\ stream_write m stream V = Some (stream ++ cs)
    /\ match stream_write m stream W1 with
       | Some stream1 => stream_write m stream1 W2
       | None => None
       end = stream_write m stream V.
Proof.
  intros Hcs HV Hk.
  pose proof (read_length _ _ _ _ Hcs) as Hlen.
  exists {| start := start V + 0; length := k |},
         {| start := start V + k; length := size V - k |}.
  assert (Hc1 : content m {| start := start V + 0; length := k |}
                = Some (firstn (Z.to_nat k) cs)).
  { unfold size in *.
    rewrite (content_slice charT m V cs 0 k Hcs) by lia. reflexivity. }
  assert (Hc2 : content m {| start := start V + k; length := size V - k |}
                = Some (skipn (Z.to_nat k) cs)).
  { unfold size in *.
    rewrite (content_slice charT m V cs k _ Hcs) by lia.
    rewrite firstn_all2; [reflexivity|]. rewrite length_skipn. lia. }
  split.
  { rewrite substr_in_range by (unfold is_size in *; lia).
    rewrite Z.sub_0_r, Z.min_l by lia. reflexivity. }
  split.
  { apply substr_to_end; [exact HV | lia]. }
  rewrite !stream_write_content, Hcs, Hc1. unfold option_map.
  rewrite stream_write_content, Hc2. unfold option_map.
  split; [reflexivity|]. f_equal.
  rewrite <- app_assoc. f_equal. apply firstn_skipn.
Qed.

Lemma stream_write_split_witness :
  exists W1 W2 : basic_substring,
    substr throwing_assert (make_substring 4096 6) 0 2 = ret W1
    /\ substr throwing_assert (make_substring 4096 6) 2 npos = ret W2
    /\ stream_write (literal 4096 "hello") [] (make_substring 4096 6)
       = Some ([] ++ list_ascii_of_string "hello")
    /\ match stream_write (literal 4096 "hello") [] W1 with
       | Some stream1 => stream_write (literal 4096 "hello") stream1 W2
       | None => None
       end
       = stream_write (literal 4096 "hello") [] (make_substring 4096 6).
Proof.
  apply (stream_write_split throwing_assert ascii (literal 4096 "hello")
           (make_substring 4096 6) (list_ascii_of_string "hello") [] 2).
  - reflexivity.
  - unfold is_size. vm_compute. split; [discriminate | reflexivity].
  - vm_compute. split; discriminate.
Defined.

(** X17: a view of size zero never reads the storage, wherever it
    points: both loops end at once, streaming writes nothing, and
    [to_string()] makes a string of size zero and leaves every stored
    character as it was. *)
Theorem zero_size_view (charT : Type) (m : memory charT)
    (V : basic_substring) (stream : list charT) (a : const_pointer)
    (fuel : nat) :
  size V = 0 ->
  content m V = Some []
  /\ traverse m (begin V) (end_ V) (S fuel) = Some []
  /\ traverse_reverse m (rbegin V) (rend V) (S fuel) = Some []
  /\ stream_write m stream V = Some stream
  /\ exists (m' : memory charT) (s : basic_string),
       to_string m a V = Some (m', s)
       /\ str_size s = 0
       /\ forall x : const_pointer, m' x = m x.
Proof.
  intros H. unfold size in H.
  unfold content, stream_write, to_string, basic_string_ptr, rbegin, rend,
    begin, end_, data, size.
  rewrite H. simpl. rewrite Z.add_0_r, Z.eqb_refl, app_nil_r.
  repeat split.
  exists (store m a []), {| str_data := a; str_size := 0 |}.
  repeat split. intros x. apply store_outside. simpl. lia.
Qed.

Lemma zero_size_view_witness :
  content (@no_storage ascii) basic_substring_default = Some []
  /\ traverse (@no_storage ascii) (begin basic_substring_default)
       (end_ basic_substring_default) 1 = Some []
  /\ stream_write (@no_storage ascii) [] basic_substring_default = Some [].
Proof.
  destruct (zero_size_view ascii no_storage basic_substring_default [] 4096
              0) as [Hc [Ht [_ [Hs _]]]].
  - reflexivity.
  - split; [exact Hc|]. split; [exact Ht | exact Hs].
Defined.

End substring.
